(** * Build configuration header [build/config.h]

    The header is a list of preprocessor lines.  Its meaning is the macro
    table a C preprocessor holds after reading it; a consumer reads a path
    constant by expanding the macro and a feature flag by testing the macro
    with [#ifdef]. *)

From Stdlib Require Import Ascii String.
From stdpp Require Import gmap strings list fin_maps.

Local Open Scope string_scope.

(** ** Preprocessor lines and the header text *)

(** The replacement list of an object-like macro.  The header only has two
    shapes: nothing at all ([#define WITH_DBUS]) and one string literal. *)
Inductive replacement : Type :=
| EmptyBody
| StringLiteral (s : string).

Inductive line : Type :=
| Ifndef (name : string)
| Define (name : string) (body : replacement)
| Comment (text : string)
| Blank
| Endif.

(** [build/config.h], line by line. *)
Definition config_h : list line :=
  [ Ifndef "_CONFIG_H_";
    Define "_CONFIG_H_" EmptyBody;
    Blank;
    Define "AWESOME_LUA_LIB_PATH" (StringLiteral "/usr/share/awesome/lib");
    Define "XDG_CONFIG_DIR" (StringLiteral "/etc/xdg");
    Define "AWESOME_THEMES_PATH" (StringLiteral "/usr/share/awesome/themes");
    Define "AWESOME_ICON_PATH" (StringLiteral "/usr/share/awesome/icons");
    Define "AWESOME_DEFAULT_CONF" (StringLiteral "/etc/xdg/awesome/rc.lua");
    Blank;
    Define "WITH_DBUS" EmptyBody;
    Comment " #undef WITH_XCB_ERRORS ";
    Define "HAS_EXECINFO" EmptyBody;
    Blank;
    Endif;
    Blank;
    Comment " vim: filetype=c:expandtab:shiftwidth=4:tabstop=8:softtabstop=4:textwidth=80" ].

(** ** Preprocessing *)

(** The preprocessor state: the macro table, and how many conditional groups
    deep the reader is inside a group it skips (0: lines are live). *)
Record pp_state : Type := PP {
  macros : gmap string replacement;
  skipping : nat
}.

Definition initial_state : pp_state := PP ∅ 0.

Definition defined (m : gmap string replacement) (name : string) : bool :=
  match m !! name with
  | Some _ => true
  | None => false
  end.

Definition preprocess_line (st : pp_state) (l : line) : pp_state :=
  match skipping st with
  | 0 =>
      match l with
      | Ifndef name =>
          if defined (macros st) name then PP (macros st) 1 else st
      | Define name body => PP (<[name := body]> (macros st)) 0
      | Comment _ | Blank | Endif => st
      end
  | S d =>
      match l with
      | Ifndef _ => PP (macros st) (S (S d))
      | Endif => PP (macros st) d
      | Define _ _ | Comment _ | Blank => st
      end
  end.

(** [#include] of a file: its lines, in order. *)
Definition include (file : list line) (st : pp_state) : pp_state :=
  foldl preprocess_line st file.

(** The macro table a translation unit sees after [#include "config.h"]. *)
Definition config_state : pp_state := include config_h initial_state.
Definition config_macros : gmap string replacement := macros config_state.

(** ** What a consumer reads *)

(** A macro used where a string is expected: the literal it expands to.
    An undefined name is left as it stands and a macro with an empty
    replacement list expands to nothing; neither is a string. *)
Definition expand (m : gmap string replacement) (name : string) : option string :=
  match m !! name with
  | Some (StringLiteral s) => Some s
  | Some EmptyBody => None
  | None => None
  end.

(** [#ifdef name]. *)
Definition ifdef (m : gmap string replacement) (name : string) : bool :=
  defined m name.

Definition AWESOME_LUA_LIB_PATH : option string := expand config_macros "AWESOME_LUA_LIB_PATH".
Definition XDG_CONFIG_DIR : option string := expand config_macros "XDG_CONFIG_DIR".
Definition AWESOME_THEMES_PATH : option string := expand config_macros "AWESOME_THEMES_PATH".
Definition AWESOME_ICON_PATH : option string := expand config_macros "AWESOME_ICON_PATH".
Definition AWESOME_DEFAULT_CONF : option string := expand config_macros "AWESOME_DEFAULT_CONF".

Definition WITH_DBUS : bool := ifdef config_macros "WITH_DBUS".
Definition WITH_XCB_ERRORS : bool := ifdef config_macros "WITH_XCB_ERRORS".
Definition HAS_EXECINFO : bool := ifdef config_macros "HAS_EXECINFO".

(** ** The keys of the configuration record *)

Inductive path_key : Type :=
| LibraryPath
| SystemConfigDir
| ThemesPath
| IconPath
| DefaultConfigFile.

Inductive flag_key : Type :=
| DbusEnabled
| XcbErrorsEnabled
| ExecinfoAvailable.

Inductive key : Type :=
| PathKey (p : path_key)
| FlagKey (f : flag_key).

Inductive value : Type :=
| VString (s : string)
| VBool (b : bool).

Definition path_macro (p : path_key) : string :=
  match p with
  | LibraryPath => "AWESOME_LUA_LIB_PATH"
  | SystemConfigDir => "XDG_CONFIG_DIR"
  | ThemesPath => "AWESOME_THEMES_PATH"
  | IconPath => "AWESOME_ICON_PATH"
  | DefaultConfigFile => "AWESOME_DEFAULT_CONF"
  end.

Definition flag_macro (f : flag_key) : string :=
  match f with
  | DbusEnabled => "WITH_DBUS"
  | XcbErrorsEnabled => "WITH_XCB_ERRORS"
  | ExecinfoAvailable => "HAS_EXECINFO"
  end.

Definition read_path (m : gmap string replacement) (p : path_key) : option string :=
  expand m (path_macro p).

Definition read_flag (m : gmap string replacement) (f : flag_key) : bool :=
  ifdef m (flag_macro f).

(** A read of a key: [None] is the read that yields no value. *)
Definition read (m : gmap string replacement) (k : key) : option value :=
  match k with
  | PathKey p => VString <$> read_path m p
  | FlagKey f => Some (VBool (read_flag m f))
  end.

(** ** A translation unit that uses the header

    After the header has been read, a translation unit may read any key and
    may include the header again, in any order. *)
Inductive event : Type :=
| IncludeConfig
| Use (k : key).

(** Runs the events from state [st]; returns the reads made, in order, each
    with the key read and what the read gave, and the final state.  The
    events are lines of live code: [run] is only used from states with
    [skipping st = 0], which the header keeps live. *)
Fixpoint run (t : list event) (st : pp_state) : list (key * option value) * pp_state :=
  match t with
  | [] => ([], st)
  | IncludeConfig :: t' => run t' (include config_h st)
  | Use k :: t' =>
      let '(log, st') := run t' st in
      ((k, read (macros st) k) :: log, st')
  end.

(** A translation unit that reads the default config file, includes the
    header a second time and reads the same key again. *)
Definition sample_unit : list event :=
  [ Use (PathKey DefaultConfigFile); IncludeConfig;
    Use (PathKey DefaultConfigFile); Use (FlagKey XcbErrorsEnabled) ].

(** ** Path strings *)

Definition is_slash (c : ascii) : bool := Ascii.eqb c "/"%char.

Definition starts_with_slash (s : string) : bool :=
  match s with
  | String c _ => is_slash c
  | EmptyString => false
  end.

Fixpoint ends_with_slash (s : string) : bool :=
  match s with
  | EmptyString => false
  | String c t =>
      match t with
      | EmptyString => is_slash c
      | String _ _ => ends_with_slash t
      end
  end.

Fixpoint contains_slash (s : string) : bool :=
  match s with
  | EmptyString => false
  | String c t => is_slash c || contains_slash t
  end.

(** The final segment of a path: what follows its last slash. *)
Fixpoint final_segment (s : string) : string :=
  match s with
  | EmptyString => EmptyString
  | String c t =>
      if contains_slash t then final_segment t
      else if is_slash c then t
      else String c t
  end.

(** The directory prefix of a path: everything through its last slash. *)
Fixpoint directory_prefix (s : string) : string :=
  match s with
  | EmptyString => EmptyString
  | String c t =>
      if contains_slash t then String c (directory_prefix t)
      else if is_slash c then String c EmptyString
      else EmptyString
  end.

(** ** The shape of the header *)

(** The macros a file defines when every one of its lines is live, in the
    order of the file. *)
Definition defines_of (file : list line) : list (string * replacement) :=
  omap (fun l => match l with
                 | Define name body => Some (name, body)
                 | _ => None
                 end) file.

(** The table after a run of [#define]s. *)
Definition define_all (defs : list (string * replacement))
    (m : gmap string replacement) : gmap string replacement :=
  foldl (fun acc d => <[d.1 := d.2]> acc) m defs.

Definition is_conditional (l : line) : bool :=
  match l with
  | Ifndef _ | Endif => true
  | Define _ _ | Comment _ | Blank => false
  end.

(** The lines between [#ifndef _CONFIG_H_] and [#endif], and the lines after
    [#endif]. *)
Definition config_body : list line := take 12 (tail config_h).
Definition config_trailer : list line := drop 14 config_h.

(** The names the header defines. *)
Definition config_names : list string := (defines_of config_h).*1.

(** A translation unit in which [WITH_XCB_ERRORS] and an unrelated macro are
    defined before the header is included. *)
Definition predefined_state : pp_state :=
  PP (<["WITH_XCB_ERRORS" := EmptyBody]> {["VERSION" := StringLiteral "v4"]}) 0.

(** A reader inside a conditional group it skips. *)
Definition skipped_state : pp_state :=
  PP {["VERSION" := StringLiteral "v4"]} 2.

(** * Properties *)

(** ** Path splitting *)

Lemma directory_prefix_final_segment (s : string) :
  directory_prefix s +:+ final_segment s = s.
Proof.
  induction s as [|c t IH]; [reflexivity|].
  cbn [directory_prefix final_segment].
  destruct (contains_slash t).
  - change (String c (directory_prefix t +:+ final_segment t) = String c t).
    by rewrite IH.
  - destruct (is_slash c); reflexivity.
Qed.

Lemma final_segment_no_slash (s : string) :
  contains_slash (final_segment s) = false.
Proof.
  induction s as [|c t IH]; simpl; [reflexivity|].
  destruct (contains_slash t) eqn:Ht; [exact IH|].
  destruct (is_slash c) eqn:Hc; [exact Ht|].
  simpl. by rewrite Hc, Ht.
Qed.

(** ** Reading the header *)

Lemma config_guard_defined : defined config_macros "_CONFIG_H_" = true.
Proof. vm_compute. reflexivity. Qed.

Lemma include_cons (l : line) (file : list line) (st : pp_state) :
  include (l :: file) st = include file (preprocess_line st l).
Proof. reflexivity. Qed.

(** Once the include guard is defined, the header changes nothing, whatever
    else the macro table holds. *)
Lemma include_config_h_guarded (m : gmap string replacement) :
  defined m "_CONFIG_H_" = true ->
  include config_h (PP m 0) = PP m 0.
Proof.
  intros Hg. unfold config_h. rewrite include_cons.
  assert (preprocess_line (PP m 0) (Ifndef "_CONFIG_H_") = PP m 1) as ->.
  { unfold preprocess_line. cbn [skipping macros]. by rewrite Hg. }
  vm_compute. reflexivity.
Qed.

Lemma config_state_eq : config_state = PP config_macros 0.
Proof. vm_compute. reflexivity. Qed.

Lemma include_config_h_again : include config_h config_state = config_state.
Proof.
  rewrite config_state_eq.
  apply include_config_h_guarded. exact config_guard_defined.
Qed.

(** From the state the header leaves, no sequence of reads and repeated
    includes changes the state, and every read gives the value of its key in
    the header's macro table. *)
Lemma run_config_state (t : list event) :
  (run t config_state).2 = config_state /\
  Forall (fun r => r.2 = read config_macros r.1) (run t config_state).1.
Proof.
  induction t as [|[|k] t [IHs IHl]]; cbn [run].
  - split; [reflexivity|constructor].
  - rewrite include_config_h_again. by split.
  - destruct (run t config_state) as [log st'] eqn:E. cbn [fst snd] in *.
    split; [exact IHs|]. apply Forall_cons. split; [|exact IHl].
    unfold config_macros. reflexivity.
Qed.

Lemma run_include_initial (t : list event) :
  run (IncludeConfig :: t) initial_state = run t config_state.
Proof. unfold config_state. reflexivity. Qed.

(** The keys of the record name the header's macros. *)
Lemma read_path_constants :
  read_path config_macros LibraryPath = AWESOME_LUA_LIB_PATH /\
  read_path config_macros SystemConfigDir = XDG_CONFIG_DIR /\
  read_path config_macros ThemesPath = AWESOME_THEMES_PATH /\
  read_path config_macros IconPath = AWESOME_ICON_PATH /\
  read_path config_macros DefaultConfigFile = AWESOME_DEFAULT_CONF.
Proof.
  unfold read_path, path_macro, AWESOME_LUA_LIB_PATH, XDG_CONFIG_DIR,
    AWESOME_THEMES_PATH, AWESOME_ICON_PATH, AWESOME_DEFAULT_CONF.
  repeat split.
Qed.

Lemma read_flag_constants :
  read_flag config_macros DbusEnabled = WITH_DBUS /\
  read_flag config_macros XcbErrorsEnabled = WITH_XCB_ERRORS /\
  read_flag config_macros ExecinfoAvailable = HAS_EXECINFO.
Proof.
  unfold read_flag, flag_macro, WITH_DBUS, WITH_XCB_ERRORS, HAS_EXECINFO.
  repeat split.
Qed.

(** A flag is read with [#ifdef], which answers for every macro table:
    a macro that is not defined reads as false. *)
Lemma read_flag_total (m : gmap string replacement) (f : flag_key) :
  exists b : bool, read m (FlagKey f) = Some (VBool b).
Proof. exists (read_flag m f). reflexivity. Qed.

(** ** The values of the constants *)

(** C1: a consumer reading the default config file constant receives exactly
    the string "/etc/xdg/awesome/rc.lua", by the macro and by the key. *)
Theorem default_conf_exact :
  AWESOME_DEFAULT_CONF = Some "/etc/xdg/awesome/rc.lua" /\
  read config_macros (PathKey DefaultConfigFile)
    = Some (VString "/etc/xdg/awesome/rc.lua").
Proof. split; vm_compute; reflexivity. Qed.



(** C3: the library path, the system config directory, the themes path and
    the icon path each equal their specified string. *)
Theorem path_constants_exact :
  AWESOME_LUA_LIB_PATH = Some "/usr/share/awesome/lib" /\
  XDG_CONFIG_DIR = Some "/etc/xdg" /\
  AWESOME_THEMES_PATH = Some "/usr/share/awesome/themes" /\
  AWESOME_ICON_PATH = Some "/usr/share/awesome/icons".
Proof. repeat split; vm_compute; reflexivity. Qed.

(** C4: messaging-bus integration is true, display-error-names integration
    is false and stack-trace capture is true. *)
Theorem flag_constants_exact :
  WITH_DBUS = true /\ WITH_XCB_ERRORS = false /\ HAS_EXECINFO = true.
Proof. repeat split; vm_compute; reflexivity. Qed.

(** C5: for every key the read succeeds and gives a value; this also holds
    for every read a translation unit makes after including the header. *)
Theorem read_never_absent :
  (forall k : key, is_Some (read config_macros k)) /\
  (forall t : list event,
     Forall (fun r => is_Some r.2) (run (IncludeConfig :: t) initial_state).1).
Proof.
  assert (forall k : key, is_Some (read config_macros k)) as Hk.
  { intros [p|f].
    - destruct p; vm_compute; eauto.
    - destruct (read_flag_total config_macros f) as [b Hb]. rewrite Hb. eauto. }
  split; [exact Hk|].
  intros t. rewrite run_include_initial.
  destruct (run_config_state t) as [_ Hl].
  eapply Forall_impl; [exact Hl|].
  intros [k v] Hv. cbn [fst snd] in *. subst v. apply Hk.
Qed.

(** C6: for each of the five path keys the string read is non-empty. *)
Theorem path_strings_nonempty (p : path_key) :
  exists s : string, read_path config_macros p = Some s /\ s <> "".
Proof.
  destruct p; eexists; (split; [vm_compute; reflexivity|discriminate]).
Qed.

(** ** Immutability *)

(** C7: in a translation unit that includes the header and then reads keys
    and includes the header again in any order, any two reads of one key
    give identical values, and the state is the one the first include
    left. *)
Theorem repeated_reads_identical
    (t : list event) (i j : nat) (k : key) (v v' : option value) :
  (run (IncludeConfig :: t) initial_state).1 !! i = Some (k, v) ->
  (run (IncludeConfig :: t) initial_state).1 !! j = Some (k, v') ->
  v = v' /\ (run (IncludeConfig :: t) initial_state).2 = config_state.
Proof.
  rewrite run_include_initial.
  destruct (run_config_state t) as [Hs Hl].
  intros Hi Hj. split; [|exact Hs].
  pose proof (proj1 (Forall_lookup _ _) Hl i _ Hi) as Ei.
  pose proof (proj1 (Forall_lookup _ _) Hl j _ Hj) as Ej.
  cbn [fst snd] in Ei, Ej. congruence.
Qed.

Lemma repeated_reads_identical_witness :
  (run (IncludeConfig :: sample_unit) initial_state).1 !! 0
    = Some (PathKey DefaultConfigFile, Some (VString "/etc/xdg/awesome/rc.lua")) /\
  (run (IncludeConfig :: sample_unit) initial_state).1 !! 1
    = Some (PathKey DefaultConfigFile, Some (VString "/etc/xdg/awesome/rc.lua")) /\
  Some (VString "/etc/xdg/awesome/rc.lua") = Some (VString "/etc/xdg/awesome/rc.lua") /\
  (run (IncludeConfig :: sample_unit) initial_state).2 = config_state.
Proof.
  assert ((run (IncludeConfig :: sample_unit) initial_state).1 !! 0
          = Some (PathKey DefaultConfigFile,
                  Some (VString "/etc/xdg/awesome/rc.lua"))) as H0.
  { vm_compute. reflexivity. }
  assert ((run (IncludeConfig :: sample_unit) initial_state).1 !! 1
          = Some (PathKey DefaultConfigFile,
                  Some (VString "/etc/xdg/awesome/rc.lua"))) as H1.
  { vm_compute. reflexivity. }
  split; [exact H0|]. split; [exact H1|].
  exact (repeated_reads_identical sample_unit 0 1 _ _ _ H0 H1).
Defined.

(** ** Relations between the paths *)

(** C8: the default config file path is the system config directory followed
    by "/awesome/rc.lua". *)
Theorem default_conf_under_xdg_dir :
  exists d : string,
    XDG_CONFIG_DIR = Some d /\
    AWESOME_DEFAULT_CONF = Some (d +:+ "/awesome/rc.lua").
Proof. exists "/etc/xdg". split; vm_compute; reflexivity. Qed.

(** C9: the library, themes and icon paths have the same directory prefix
    "/usr/share/awesome/" and their final segments are "lib", "themes" and
    "icons". *)
Theorem share_paths_common_prefix :
  exists lib themes icons : string,
    AWESOME_LUA_LIB_PATH = Some lib /\
    AWESOME_THEMES_PATH = Some themes /\
    AWESOME_ICON_PATH = Some icons /\
    lib = "/usr/share/awesome/" +:+ "lib" /\
    themes = "/usr/share/awesome/" +:+ "themes" /\
    icons = "/usr/share/awesome/" +:+ "icons" /\
    directory_prefix lib = "/usr/share/awesome/" /\
    directory_prefix themes = "/usr/share/awesome/" /\
    directory_prefix icons = "/usr/share/awesome/" /\
    final_segment lib = "lib" /\
    final_segment themes = "themes" /\
    final_segment icons = "icons".
Proof.
  exists "/usr/share/awesome/lib", "/usr/share/awesome/themes",
    "/usr/share/awesome/icons".
  repeat split; vm_compute; reflexivity.
Qed.

(** C10: every path constant begins with a slash and does not end with
    one. *)
Theorem paths_absolute_no_trailing_slash (p : path_key) :
  exists s : string,
    read_path config_macros p = Some s /\
    starts_with_slash s = true /\
    ends_with_slash s = false.
Proof.
  destruct p; eexists;
    (split; [vm_compute; reflexivity|split; vm_compute; reflexivity]).
Qed.

(** * The header under any macro table *)

(** ** Files without conditionals *)

Lemma include_app (a b : list line) (st : pp_state) :
  include (a ++ b) st = include b (include a st).
Proof. unfold include. apply foldl_app. Qed.

Lemma defines_of_cons_define (name : string) (body : replacement) (file : list line) :
  defines_of (Define name body :: file) = (name, body) :: defines_of file.
Proof. reflexivity. Qed.

Lemma include_flat_live (file : list line) (m : gmap string replacement) :
  forallb (fun l => negb (is_conditional l)) file = true ->
  include file (PP m 0) = PP (define_all (defines_of file) m) 0.
Proof.
  revert m. induction file as [|l file IH]; intros m Hf; [reflexivity|].
  cbn [forallb] in Hf. apply andb_prop in Hf as [Hl Hf].
  rewrite include_cons.
  destruct l as [n|n b|c| |]; try discriminate Hl.
  - rewrite defines_of_cons_define.
    change (preprocess_line (PP m 0) (Define n b)) with (PP (<[n := b]> m) 0).
    rewrite (IH _ Hf). reflexivity.
  - change (preprocess_line (PP m 0) (Comment c)) with (PP m 0). exact (IH _ Hf).
  - change (preprocess_line (PP m 0) Blank) with (PP m 0). exact (IH _ Hf).
Qed.

Lemma include_flat_skipped (file : list line) (m : gmap string replacement) (d : nat) :
  forallb (fun l => negb (is_conditional l)) file = true ->
  include file (PP m (S d)) = PP m (S d).
Proof.
  induction file as [|l file IH]; intros Hf; [reflexivity|].
  cbn [forallb] in Hf. apply andb_prop in Hf as [Hl Hf].
  rewrite include_cons.
  destruct l as [n|n b|c| |]; try discriminate Hl; exact (IH Hf).
Qed.

(** ** Tables after a run of defines *)

Lemma define_all_cons (d : string * replacement) (defs : list (string * replacement))
    (m : gmap string replacement) :
  define_all (d :: defs) m = define_all defs (<[d.1 := d.2]> m).
Proof. reflexivity. Qed.

Lemma lookup_define_all_notin (defs : list (string * replacement))
    (m : gmap string replacement) (name : string) :
  name ∉ defs.*1 -> define_all defs m !! name = m !! name.
Proof.
  revert m. induction defs as [|[n b] defs IH]; intros m Hn; [reflexivity|].
  rewrite define_all_cons. cbn [fmap list_fmap fst snd] in *.
  apply not_elem_of_cons in Hn as [Hne Hn].
  rewrite (IH _ Hn). apply lookup_insert_ne. congruence.
Qed.

Lemma lookup_define_all_in (defs : list (string * replacement))
    (m : gmap string replacement) (name : string) (body : replacement) :
  NoDup defs.*1 -> (name, body) ∈ defs -> define_all defs m !! name = Some body.
Proof.
  revert m. induction defs as [|[n b] defs IH]; intros m Hnd Hin.
  - by apply elem_of_nil in Hin.
  - rewrite define_all_cons. cbn [fmap list_fmap fst snd] in *.
    apply NoDup_cons in Hnd as [Hn Hnd].
    apply elem_of_cons in Hin as [Heq|Hin].
    + injection Heq as -> ->.
      rewrite (lookup_define_all_notin _ _ _ Hn). apply lookup_insert_eq.
    + exact (IH _ Hnd Hin).
Qed.

Lemma dom_define_all (defs : list (string * replacement)) (m : gmap string replacement) :
  dom (define_all defs m) = dom m ∪ list_to_set defs.*1.
Proof.
  revert m. induction defs as [|[n b] defs IH]; intros m.
  - cbn. set_solver.
  - rewrite define_all_cons, IH. cbn [fmap list_fmap fst snd list_to_set].
    rewrite dom_insert_L. set_solver.
Qed.

(** ** The three ways the header can be read *)

Lemma config_h_shape :
  config_h = Ifndef "_CONFIG_H_" :: config_body ++ Endif :: config_trailer.
Proof. reflexivity. Qed.

Lemma config_body_flat :
  forallb (fun l => negb (is_conditional l)) config_body = true.
Proof. reflexivity. Qed.

Lemma config_trailer_flat :
  forallb (fun l => negb (is_conditional l)) config_trailer = true.
Proof. reflexivity. Qed.

Lemma defines_of_config_body : defines_of config_body = defines_of config_h.
Proof. reflexivity. Qed.

Lemma defines_of_config_trailer : defines_of config_trailer = [].
Proof. reflexivity. Qed.

Lemma defines_of_config_h :
  defines_of config_h =
    [ ("_CONFIG_H_", EmptyBody);
      ("AWESOME_LUA_LIB_PATH", StringLiteral "/usr/share/awesome/lib");
      ("XDG_CONFIG_DIR", StringLiteral "/etc/xdg");
      ("AWESOME_THEMES_PATH", StringLiteral "/usr/share/awesome/themes");
      ("AWESOME_ICON_PATH", StringLiteral "/usr/share/awesome/icons");
      ("AWESOME_DEFAULT_CONF", StringLiteral "/etc/xdg/awesome/rc.lua");
      ("WITH_DBUS", EmptyBody);
      ("HAS_EXECINFO", EmptyBody) ].
Proof. reflexivity. Qed.

(** No macro is defined twice in the header. *)
Lemma config_names_NoDup : NoDup config_names.
Proof. apply (bool_decide_unpack _). vm_compute. exact I. Qed.

Ltac in_defines :=
  rewrite defines_of_config_h;
  repeat first [apply list_elem_of_here | apply list_elem_of_further].

(** Inside a skipped group the header is skipped whole. *)
Lemma include_config_h_skipped (m : gmap string replacement) (d : nat) :
  include config_h (PP m (S d)) = PP m (S d).
Proof.
  rewrite config_h_shape, include_cons.
  change (preprocess_line (PP m (S d)) (Ifndef "_CONFIG_H_")) with (PP m (S (S d))).
  rewrite include_app, (include_flat_skipped _ _ _ config_body_flat), include_cons.
  change (preprocess_line (PP m (S (S d))) Endif) with (PP m (S d)).
  exact (include_flat_skipped _ _ _ config_trailer_flat).
Qed.

(** Read live with the guard not yet defined, the header makes its eight
    definitions and nothing else. *)
Lemma include_config_h_fresh (m : gmap string replacement) :
  defined m "_CONFIG_H_" = false ->
  include config_h (PP m 0) = PP (define_all (defines_of config_h) m) 0.
Proof.
  intros Hg. rewrite <- defines_of_config_body, config_h_shape, include_cons.
  assert (preprocess_line (PP m 0) (Ifndef "_CONFIG_H_") = PP m 0) as ->.
  { unfold preprocess_line. cbn [skipping macros]. by rewrite Hg. }
  rewrite include_app, (include_flat_live _ _ config_body_flat), include_cons.
  change (preprocess_line (PP (define_all (defines_of config_body) m) 0) Endif)
    with (PP (define_all (defines_of config_body) m) 0).
  rewrite (include_flat_live _ _ config_trailer_flat), defines_of_config_trailer.
  reflexivity.
Qed.

Lemma guard_defined_after (m : gmap string replacement) :
  defined (define_all (defines_of config_h) m) "_CONFIG_H_" = true.
Proof.
  unfold defined.
  rewrite (lookup_define_all_in _ m "_CONFIG_H_" EmptyBody config_names_NoDup);
    [reflexivity|in_defines].
Qed.

Lemma include_config_h_idem (st : pp_state) :
  include config_h (include config_h st) = include config_h st.
Proof.
  destruct st as [m [|d]].
  - destruct (defined m "_CONFIG_H_") eqn:Hg.
    + by rewrite !(include_config_h_guarded m Hg).
    + rewrite (include_config_h_fresh m Hg).
      apply include_config_h_guarded, guard_defined_after.
  - by rewrite !include_config_h_skipped.
Qed.

Lemma lookup_include_config_h (st : pp_state) (name : string) :
  name ∉ config_names ->
  macros (include config_h st) !! name = macros st !! name.
Proof.
  intros Hn. destruct st as [m [|d]].
  - destruct (defined m "_CONFIG_H_") eqn:Hg.
    + by rewrite (include_config_h_guarded m Hg).
    + rewrite (include_config_h_fresh m Hg). cbn [macros].
      exact (lookup_define_all_notin _ _ _ Hn).
  - by rewrite include_config_h_skipped.
Qed.

Lemma xcb_errors_not_a_config_name : "WITH_XCB_ERRORS" ∉ config_names.
Proof. apply (bool_decide_unpack _). vm_compute. exact I. Qed.

(** The defining equations of [run]. *)
Lemma run_include (t : list event) (st : pp_state) :
  run (IncludeConfig :: t) st = run t (include config_h st).
Proof. unfold run at 2. reflexivity. Qed.

Lemma run_use (k : key) (t : list event) (st : pp_state) :
  run (Use k :: t) st = ((k, read (macros st) k) :: (run t st).1, (run t st).2).
Proof. cbn [run]. by destruct (run t st). Qed.

(** From a state that including the header leaves unchanged, no sequence of
    reads and includes changes the state, and every read gives the value of
    its key in that state. *)
Lemma run_fixed_state (s : pp_state) (t : list event) :
  include config_h s = s ->
  (run t s).2 = s /\ Forall (fun r => r.2 = read (macros s) r.1) (run t s).1.
Proof.
  intros Hs. induction t as [|[|k] t [IHs IHl]].
  - split; [reflexivity|constructor].
  - rewrite run_include, Hs. by split.
  - rewrite run_use. split; [exact IHs|].
    apply Forall_cons. by split.
Qed.

(** ** Tables the header is read into *)

Lemma config_names_eq :
  config_names =
    [ "_CONFIG_H_"; "AWESOME_LUA_LIB_PATH"; "XDG_CONFIG_DIR";
      "AWESOME_THEMES_PATH"; "AWESOME_ICON_PATH"; "AWESOME_DEFAULT_CONF";
      "WITH_DBUS"; "HAS_EXECINFO" ].
Proof. reflexivity. Qed.

Ltac in_names :=
  rewrite config_names_eq;
  repeat first [apply list_elem_of_here | apply list_elem_of_further].

(** What a run of defines gives a name it defines does not depend on the
    table it started from. *)
Lemma lookup_define_all_indep (defs : list (string * replacement))
    (m m' : gmap string replacement) (name : string) :
  name ∈ defs.*1 -> define_all defs m !! name = define_all defs m' !! name.
Proof.
  revert m m'. induction defs as [|[n b] defs IH]; intros m m' Hin.
  - by apply elem_of_nil in Hin.
  - rewrite !define_all_cons. cbn [fmap list_fmap fst snd] in *.
    destruct (decide (name ∈ defs.*1)) as [Hd|Hd]; [exact (IH _ _ Hd)|].
    apply elem_of_cons in Hin as [->|Hin]; [|contradiction].
    rewrite !(lookup_define_all_notin _ _ _ Hd).
    by rewrite !lookup_insert_eq.
Qed.

Lemma config_macros_eq : config_macros = define_all (defines_of config_h) ∅.
Proof. vm_compute. reflexivity. Qed.

Lemma lookup_fresh_include (m : gmap string replacement) (name : string) :
  defined m "_CONFIG_H_" = false ->
  name ∈ config_names ->
  macros (include config_h (PP m 0)) !! name = config_macros !! name.
Proof.
  intros Hg Hn. rewrite (include_config_h_fresh m Hg), config_macros_eq.
  cbn [macros]. exact (lookup_define_all_indep _ _ _ _ Hn).
Qed.

Lemma key_macro_in_config_names (k : key) :
  k <> FlagKey XcbErrorsEnabled ->
  match k with PathKey p => path_macro p | FlagKey f => flag_macro f end
    ∈ config_names.
Proof.
  intros Hk. destruct k as [[]|[]]; try (cbn [path_macro flag_macro]; in_names).
  by destruct Hk.
Qed.

(** The reads of a key look at the table only under the key's macro. *)
Lemma read_ext (m m' : gmap string replacement) (k : key) :
  m !! match k with PathKey p => path_macro p | FlagKey f => flag_macro f end
    = m' !! match k with PathKey p => path_macro p | FlagKey f => flag_macro f end ->
  read m k = read m' k.
Proof.
  intros E. destruct k as [p|f];
    unfold read, read_path, read_flag, expand, ifdef, defined; by rewrite E.
Qed.

(** ** Properties of the include guard and of the definitions *)

(** X1: including the header twice in a row leaves the same state as
    including it once, from any preprocessor state. *)
Theorem include_config_h_idempotent (st : pp_state) :
  include config_h (include config_h st) = include config_h st.
Proof. exact (include_config_h_idem st). Qed.

(** X2: the header closes the conditional group it opens: the nesting depth
    of skipped groups is the same after the header as before it. *)
Theorem include_config_h_balanced (st : pp_state) :
  skipping (include config_h st) = skipping st.
Proof.
  destruct st as [m [|d]].
  - destruct (defined m "_CONFIG_H_") eqn:Hg.
    + by rewrite (include_config_h_guarded m Hg).
    + by rewrite (include_config_h_fresh m Hg).
  - by rewrite include_config_h_skipped.
Qed.

(** X3: the header leaves every macro it does not name as it was, defined or
    not, from any preprocessor state. *)
Theorem include_config_h_frame (st : pp_state) (name : string) :
  name ∉ config_names ->
  macros (include config_h st) !! name = macros st !! name.
Proof. exact (lookup_include_config_h st name). Qed.

Lemma include_config_h_frame_witness :
  "VERSION" ∉ config_names /\
  macros (include config_h predefined_state) !! "VERSION"
    = macros predefined_state !! "VERSION".
Proof.
  assert ("VERSION" ∉ config_names) as Hn.
  { apply (bool_decide_unpack _). vm_compute. exact I. }
  exact (conj Hn (include_config_h_frame predefined_state "VERSION" Hn)).
Defined.

(** X4: the header never undefines [WITH_XCB_ERRORS]: its [#undef] line is a
    comment, so the flag reads after the header as it read before it. *)
Theorem xcb_errors_flag_untouched (st : pp_state) :
  read_flag (macros (include config_h st)) XcbErrorsEnabled
    = read_flag (macros st) XcbErrorsEnabled.
Proof.
  unfold read_flag, ifdef, defined. cbn [flag_macro].
  by rewrite (lookup_include_config_h st _ xcb_errors_not_a_config_name).
Qed.

(** X5: read live with the guard not defined, the header defines its eight
    names and no other: the defined names afterwards are the ones before
    together with the header's. *)
Theorem include_config_h_defines (st : pp_state) :
  skipping st = 0 ->
  defined (macros st) "_CONFIG_H_" = false ->
  dom (macros (include config_h st)) = dom (macros st) ∪ list_to_set config_names.
Proof.
  destruct st as [m d]. cbn [skipping macros]. intros -> Hg.
  rewrite (include_config_h_fresh m Hg). cbn [macros].
  apply dom_define_all.
Qed.

Lemma include_config_h_defines_witness :
  skipping predefined_state = 0 /\
  defined (macros predefined_state) "_CONFIG_H_" = false /\
  dom (macros (include config_h predefined_state))
    = dom (macros predefined_state) ∪ list_to_set config_names.
Proof.
  assert (skipping predefined_state = 0) as H0 by reflexivity.
  assert (defined (macros predefined_state) "_CONFIG_H_" = false) as Hg.
  { vm_compute. reflexivity. }
  exact (conj H0 (conj Hg (include_config_h_defines predefined_state H0 Hg))).
Defined.

(** X6: read live with the guard not defined, the header fixes every key but
    the display-error-names flag: each reads as it does after a clean
    include, whatever the table held before (an earlier definition of one of
    the header's names is replaced). *)
Theorem reads_independent_of_prior_table (st : pp_state) (k : key) :
  skipping st = 0 ->
  defined (macros st) "_CONFIG_H_" = false ->
  k <> FlagKey XcbErrorsEnabled ->
  read (macros (include config_h st)) k = read config_macros k.
Proof.
  destruct st as [m d]. cbn [skipping macros]. intros -> Hg Hk.
  apply read_ext, (lookup_fresh_include m _ Hg), key_macro_in_config_names, Hk.
Qed.

Lemma reads_independent_of_prior_table_witness :
  skipping predefined_state = 0 /\
  defined (macros predefined_state) "_CONFIG_H_" = false /\
  PathKey DefaultConfigFile <> FlagKey XcbErrorsEnabled /\
  read (macros (include config_h predefined_state)) (PathKey DefaultConfigFile)
    = read config_macros (PathKey DefaultConfigFile).
Proof.
  assert (skipping predefined_state = 0) as H0 by reflexivity.
  assert (defined (macros predefined_state) "_CONFIG_H_" = false) as Hg.
  { vm_compute. reflexivity. }
  assert (PathKey DefaultConfigFile <> FlagKey XcbErrorsEnabled) as Hk.
  { discriminate. }
  exact (conj H0 (conj Hg (conj Hk
    (reads_independent_of_prior_table predefined_state _ H0 Hg Hk)))).
Defined.

(** X7: inside a conditional group that is being skipped the header is
    skipped whole: it defines nothing and leaves the state as it was. *)
Theorem include_config_h_skipped_inert (st : pp_state) :
  0 < skipping st -> include config_h st = st.
Proof.
  destruct st as [m [|d]]; cbn [skipping]; intros Hd; [lia|].
  apply include_config_h_skipped.
Qed.

Lemma include_config_h_skipped_inert_witness :
  0 < skipping skipped_state /\ include config_h skipped_state = skipped_state.
Proof.
  assert (0 < skipping skipped_state) as Hd by (cbn; lia).
  exact (conj Hd (include_config_h_skipped_inert skipped_state Hd)).
Defined.

Lemma include_config_h_keeps_depth (st : pp_state) :
  skipping (include config_h st) = skipping st.
Proof.
  destruct st as [m [|d]].
  - destruct (defined m "_CONFIG_H_") eqn:Hg.
    + by rewrite (include_config_h_guarded m Hg).
    + by rewrite (include_config_h_fresh m Hg).
  - by rewrite include_config_h_skipped.
Qed.

(** X8: from any live preprocessor state, whatever its macro table, once the
    header has been included the reader is still live, no sequence of reads
    and further includes changes the state, and every read gives the value
    its key has right after that first include. *)
Theorem reads_stable_after_any_include (st : pp_state) (t : list event) :
  skipping st = 0 ->
  skipping (include config_h st) = 0 /\
  (run (IncludeConfig :: t) st).2 = include config_h st /\
  Forall (fun r => r.2 = read (macros (include config_h st)) r.1)
    (run (IncludeConfig :: t) st).1.
Proof.
  intros H0. split; [by rewrite include_config_h_keeps_depth|].
  rewrite run_include.
  exact (run_fixed_state _ t (include_config_h_idem st)).
Qed.

Lemma reads_stable_after_any_include_witness :
  skipping predefined_state = 0 /\
  skipping (include config_h predefined_state) = 0 /\
  (run (IncludeConfig :: sample_unit) predefined_state).2
    = include config_h predefined_state /\
  Forall (fun r => r.2 = read (macros (include config_h predefined_state)) r.1)
    (run (IncludeConfig :: sample_unit) predefined_state).1.
Proof.
  assert (skipping predefined_state = 0) as H0 by reflexivity.
  exact (conj H0 (reads_stable_after_any_include predefined_state sample_unit H0)).
Defined.

(** X9: when the guard macro is already defined, a live include of the
    header changes nothing at all: no macro is added or replaced. *)
Theorem include_config_h_guard_noop (st : pp_state) :
  skipping st = 0 ->
  defined (macros st) "_CONFIG_H_" = true ->
  include config_h st = st.
Proof.
  destruct st as [m d]. cbn [skipping macros]. intros -> Hg.
  exact (include_config_h_guarded m Hg).
Qed.

Lemma include_config_h_guard_noop_witness :
  skipping config_state = 0 /\
  defined (macros config_state) "_CONFIG_H_" = true /\
  include config_h config_state = config_state.
Proof.
  assert (skipping config_state = 0) as H0 by (vm_compute; reflexivity).
  assert (defined (macros config_state) "_CONFIG_H_" = true) as Hg.
  { vm_compute. reflexivity. }
  exact (conj H0 (conj Hg (include_config_h_guard_noop config_state H0 Hg))).
Defined.
